(** * dc-dc-converters: averaged buck / buck-boost models and their integration

    A shallow embedding of [main.py].  Python floats are idealised as real
    numbers (the state is the spec's "2-element real vector"); the literals
    [1e-3], [50e-6], [0.5] are the rationals they denote.  Python's [/] on
    floats raises [ZeroDivisionError] on a zero divisor, so every division of
    the source is a fallible step of an error monad.  That is the behaviour
    of a direct call on Python numbers; on the items of the numpy array that
    the solver passes as state, a zero divisor yields inf or nan instead of
    raising, which the reals do not hold.  Of the divisions of the source
    only [E * Uav / L] has Python scalars on both sides in either case, so
    what is stated about failing runs is stated for L = 0. *)

From Stdlib Require Import Reals Lra Sorted.
From stdpp Require Import base decidable option list.

Open Scope R_scope.

(** The name [R] is the load resistance in the source, so the type of reals
    is written [float] in binders that also bind [R]. *)
Abbreviation float := R.

(** ** Failures

    [ZeroDivisionError] and [ValueError] are the exceptions the source can
    raise (a division by zero; unpacking [i, v = x] from a sequence that has
    not two items).  The other three are the failure classes of the
    specification's error taxonomy; no statement of the source raises them. *)
Inductive failure : Type :=
  | ZeroDivisionError
  | ValueError
  | InvalidParameters
  | InvalidTimeGrid
  | NumericalFailure.

Inductive result (A : Type) : Type :=
  | Ok (a : A)
  | Err (e : failure).
Arguments Ok {A} a.
Arguments Err {A} e.

#[global] Instance result_ret : MRet result := fun _ a => Ok a.
#[global] Instance result_bind : MBind result := fun _ _ k m =>
  match m with
  | Ok a => k a
  | Err e => Err e
  end.

#[global] Instance Req_decision : EqDecision R := Req_dec_T.
#[global] Instance Rle_decision : RelDecision Rle := Rle_dec.
#[global] Instance Rlt_decision : RelDecision Rlt := Rlt_dec.

(** Python's [a / b] on floats. *)
Definition pydiv (a b : float) : result float :=
  if decide (b = 0) then Err ZeroDivisionError else Ok (a / b).

Infix "//" := pydiv (at level 40, left associativity).

(** Python's builtin [max(a, b)]: the first argument unless the second is
    strictly greater. *)
Definition pymax (a b : float) : float :=
  if decide (a < b) then b else a.

(** ** Derivative model *)

Abbreviation state := (float * float)%type.

Definition buck (x : state) (t L R C Uav E : float) : result state :=
  let '(i, v) := x in
  q1 ← (E * Uav) // L;
  q2 ← v // L;
  let di_dt := q1 - q2 in
  q3 ← i // C;
  q4 ← v // R;
  q5 ← q4 // C;
  let dv_dt := q3 - q5 in
  Ok (di_dt, dv_dt).

Definition buck_boost (x : state) (t L R C Uav E : float) : result state :=
  let '(i, v) := x in
  q1 ← (E * Uav) // L;
  q2 ← ((1 - Uav) * v) // L;
  let di_dt := q1 + q2 in
  q3 ← (- (1 - Uav) * i) // C;
  q4 ← v // (R * C);
  let dv_dt := q3 - q4 in
  Ok (di_dt, dv_dt).

Definition buck_boost_clamped (x : state) (t L R C Uav E : float)
  : result state :=
  let '(i, v) := x in
  q1 ← (E * Uav) // L;
  q2 ← ((1 - Uav) * v) // L;
  let di_dt := q1 + q2 in
  let i_eff := pymax i 0 in
  q3 ← (- (1 - Uav) * i_eff) // C;
  q4 ← v // (R * C);
  let dv_dt := q3 - q4 in
  let di_dt := if bool_decide (i <= 0) && bool_decide (di_dt < 0)
               then 0 else di_dt in
  Ok (di_dt, dv_dt).

(** ** Python objects

    The state handed to a derivative function is a mutable sequence object;
    the source reads it with [i, v = x] and answers with a newly built list
    [[di_dt, dv_dt]].  The heap holds the list objects in allocation order,
    a location is an index in it. *)

Abbreviation loc := nat.
Abbreviation heap := (list (list float)).

(** Computations that may raise and that read, extend or update the heap. *)
Definition py (A : Type) : Type := heap -> result (A * heap).

#[global] Instance py_ret : MRet py := fun _ a h => Ok (a, h).
#[global] Instance py_bind : MBind py := fun _ _ k m h =>
  match m h with
  | Ok (a, h') => k a h'
  | Err e => Err e
  end.

(** A pure fallible step inside a heap computation. *)
Definition lift {A : Type} (r : result A) : py A := fun h =>
  match r with
  | Ok a => Ok (a, h)
  | Err e => Err e
  end.

(** [[a, b, ...]]: a new list object. *)
Definition new_list (items : list float) : py loc := fun h =>
  Ok (length h, h ++ [items]).

(** [a, b = x]: unpacking raises [ValueError] unless [x] has two items. *)
Definition unpack2 (x : loc) : py state := fun h =>
  match h !! x with
  | Some [a; b] => Ok ((a, b), h)
  | _ => Err ValueError
  end.

(** [x[:] = items]: in-place update of an existing object. *)
Definition assign (x : loc) (items : list float) : py unit := fun h =>
  Ok (tt, <[x := items]> h).

(** The signature shared by the three derivative functions, on values. *)
Definition rhs : Type :=
  state -> float -> float -> float -> float -> float -> float -> result state.

(** A call [func(x, t, L, R, C, Uav, E)] on a state object: the unpacking of
    [x] that opens each of the three functions, their body on the two items,
    and the list built by their [return]. *)
Definition call (func : rhs) (x : loc) (t L R C Uav E : float) : py loc :=
  xs ← unpack2 x;
  d ← lift (func xs t L R C Uav E);
  new_list [d.1; d.2].

(** ** Integration *)

Inductive topology : Type := Buck | BuckBoost | BuckBoostClamped.

Definition model (topo : topology) : rhs :=
  match topo with
  | Buck => buck
  | BuckBoost => buck_boost
  | BuckBoostClamped => buck_boost_clamped
  end.

(** The [args] tuple of [main]. *)
Record parameters : Type := Parameters {
  p_L : float;  p_R : float;  p_C : float;  p_Uav : float;  p_E : float
}.

(** Modelled from the spec: the stepping loop of [scipy.integrate.odeint],
    which [main] imports and calls and which is not part of this repository.
    The specification (Integrator contract) accepts any fixed-step explicit
    method that reports one state per grid time; this is the forward Euler
    method stepping from each grid time to the next.  As the solver does, it
    keeps the current state in one work array [y] that it passes to [func] at
    every evaluation and overwrites after every step.  The model fixes the
    structure of a run (one row per grid time, the derivative evaluated first
    at the initial state and the first grid time, an exception of the
    derivative function ending the run); the values of its rows are those of
    forward Euler, not those of the library's adaptive method. *)
Fixpoint euler (func : loc -> float -> py loc) (y : loc) (t : float)
    (ts : list float) : py (list state) :=
  match ts with
  | [] => mret []
  | t' :: ts' =>
      d ← func y t;
      dx ← unpack2 d;
      x ← unpack2 y;
      let x' := (x.1 + (t' - t) * dx.1, x.2 + (t' - t) * dx.2) in
      _ ← assign y [x'.1; x'.2];
      rows ← euler func y t' ts';
      mret (x' :: rows)
  end.

(** Modelled from the spec: [odeint(func, y0, t, args)], absent from the
    repository like its stepping loop above.  The initial state is copied into
    the work array and is the first reported row; an empty grid reports
    nothing. *)
Definition odeint (func : loc -> float -> float -> float -> float -> float ->
                          float -> py loc)
    (y0 : state) (t : list float) (args : parameters) : py (list state) :=
  match t with
  | [] => mret []
  | t0 :: ts =>
      y ← new_list [y0.1; y0.2];
      rows ← euler (fun x s => func x s (p_L args) (p_R args) (p_C args)
                                 (p_Uav args) (p_E args)) y t0 ts;
      mret (y0 :: rows)
  end.

(** [main]'s solver call [odeint(buck, x0, t, args=(L, R, C, Uav, E))], with
    the derivative function, the initial state, the grid and the parameters
    it fixes taken as arguments.  Nothing precedes the solver call. *)
Definition simulate (topo : topology) (initial_state : state)
    (time_grid : list float) (args : parameters) : py (list state) :=
  odeint (call (model topo)) initial_state time_grid args.

(** ** Facts about the primitive operations *)

Lemma pydiv_ok (a b : float) : b <> 0 -> a // b = Ok (a / b).
Proof. intros Hb. unfold pydiv. destruct (decide (b = 0)); [contradiction | reflexivity]. Qed.

Lemma pydiv_zero (a : float) : a // 0 = Err ZeroDivisionError.
Proof. unfold pydiv. destruct (decide (0 = 0)); [reflexivity | contradiction]. Qed.

Lemma pymax_Rmax (a b : float) : pymax a b = Rmax a b.
Proof.
  unfold pymax, Rmax. destruct (decide (a < b)), (Rle_dec a b); try reflexivity; lra.
Qed.

Lemma buck_valid (i v t L R C Uav E : float) :
  L <> 0 -> R <> 0 -> C <> 0 ->
  buck (i, v) t L R C Uav E = Ok (E * Uav / L - v / L, i / C - v / (R * C)).
Proof.
  intros HL HR HC. unfold buck.
  rewrite !pydiv_ok by assumption. cbn.
  rewrite !pydiv_ok by assumption. cbn.
  f_equal. f_equal. field. split; assumption.
Qed.

(** Case analysis on the next division of a derivative function. *)
Ltac next_div :=
  match goal with
  | |- context [?a // ?b] =>
      let Hz := fresh "Hz" in
      destruct (decide (b = 0)) as [Hz | Hz];
      [ rewrite ?Hz in *; rewrite ?pydiv_zero | rewrite (pydiv_ok a b Hz) ];
      cbn [mbind result_bind]
  end.

(** The clamp test of [buck_boost_clamped], as a proposition. *)
Lemma clamp_test (i d : float) :
  (if bool_decide (i <= 0) && bool_decide (d < 0) then 0 else d) =
  (if decide (i <= 0 /\ d < 0) then 0 else d).
Proof.
  destruct (decide (i <= 0 /\ d < 0)) as [[Hi Hd] | Hn].
  - rewrite !bool_decide_eq_true_2 by assumption. reflexivity.
  - destruct (decide (i <= 0)) as [Hi | Hi].
    + rewrite (bool_decide_eq_true_2 _ Hi).
      rewrite bool_decide_eq_false_2; [reflexivity | intros Hd; apply Hn; split; assumption].
    + rewrite (bool_decide_eq_false_2 _ Hi). reflexivity.
Qed.

Lemma buck_boost_valid (i v t L R C Uav E : float) :
  L <> 0 -> R <> 0 -> C <> 0 ->
  buck_boost (i, v) t L R C Uav E =
  Ok (E * Uav / L + (1 - Uav) * v / L, - (1 - Uav) * i / C - v / (R * C)).
Proof.
  intros HL HR HC. unfold buck_boost.
  assert (HRC : R * C <> 0) by (apply Rmult_integral_contrapositive_currified; assumption).
  repeat (next_div; try contradiction). reflexivity.
Qed.

Lemma buck_boost_clamped_valid (i v t L R C Uav E : float) :
  L <> 0 -> R <> 0 -> C <> 0 ->
  buck_boost_clamped (i, v) t L R C Uav E =
  Ok (let d0 := E * Uav / L + (1 - Uav) * v / L in
      if decide (i <= 0 /\ d0 < 0) then 0 else d0,
      - (1 - Uav) * pymax i 0 / C - v / (R * C)).
Proof.
  intros HL HR HC. unfold buck_boost_clamped.
  assert (HRC : R * C <> 0) by (apply Rmult_integral_contrapositive_currified; assumption).
  repeat (next_div; try contradiction). rewrite clamp_test. reflexivity.
Qed.

(** A derivative function that returns has divided by non-zero numbers only. *)
Lemma model_returns_inv (topo : topology) (x : state) (t L R C Uav E : float)
    (d : state) :
  model topo x t L R C Uav E = Ok d -> L <> 0 /\ R <> 0 /\ C <> 0.
Proof.
  destruct x as [i v].
  destruct topo; cbn [model];
    unfold buck, buck_boost, buck_boost_clamped;
    repeat (next_div; try discriminate); intros _.
  - repeat split; assumption.
  - repeat split; try assumption; intros ->; apply Hz2; lra.
  - repeat split; try assumption; intros ->; apply Hz2; lra.
Qed.

(** ** The derivative model: claims *)

Section DerivativeModel.

Variables i v t L R C Uav E : float.

(** C3.  With L, R, C non-zero, [buck] returns exactly
    (E*Uav/L - v/L, i/C - v/(R*C)); at state (1, 2), t = 0, L = 1e-3,
    R = 47, C = 50e-6, Uav = 0.5, E = 12 that is di/dt = 4000 and
    dv/dt = 20000 - 2/(47*50e-6), which lies between 19148.93 and
    19148.94. *)
Theorem buck_equations :
  L <> 0 -> R <> 0 -> C <> 0 ->
  buck (i, v) t L R C Uav E = Ok (E * Uav / L - v / L, i / C - v / (R * C))
  /\ buck (1, 2) 0 1e-3 47 50e-6 0.5 12
     = Ok (4000, 20000 - 2 / (47 * 50e-6))
  /\ 19148.93 < 20000 - 2 / (47 * 50e-6) < 19148.94.
Proof.
  intros HL HR HC. split; [apply buck_valid; assumption | split].
  - rewrite buck_valid by lra. f_equal. f_equal; lra.
  - lra.
Qed.

(** C4.  With L, R, C non-zero, [buck_boost] returns exactly
    (E*Uav/L + (1-Uav)*v/L, -(1-Uav)*i/C - v/(R*C)). *)
Theorem buck_boost_equations :
  L <> 0 -> R <> 0 -> C <> 0 ->
  buck_boost (i, v) t L R C Uav E =
  Ok (E * Uav / L + (1 - Uav) * v / L, - (1 - Uav) * i / C - v / (R * C)).
Proof. apply buck_boost_valid. Qed.

(** C1.  [buck_boost_clamped] computes di/dt as (E*Uav)/L + (1-Uav)*v/L,
    in which the current does not occur, and returns 0 in its place exactly
    when i <= 0 and that value is strictly negative; in every other case,
    in particular for i <= 0 and a non-negative value, the computed value is
    returned as it is.  The function returns whenever L, R, C are
    non-zero. *)
Theorem clamp_rule :
  let d0 := (E * Uav) / L + (1 - Uav) * v / L in
  (L <> 0 -> R <> 0 -> C <> 0 ->
   exists di dv, buck_boost_clamped (i, v) t L R C Uav E = Ok (di, dv))
  /\ (forall di dv,
        buck_boost_clamped (i, v) t L R C Uav E = Ok (di, dv) ->
        (i <= 0 /\ d0 < 0 -> di = 0)
        /\ (i <= 0 -> 0 <= d0 -> di = d0)
        /\ (0 < i -> di = d0)
        /\ (di <> d0 <-> i <= 0 /\ d0 < 0)).
Proof.
  intros d0. split.
  - intros HL HR HC. rewrite buck_boost_clamped_valid by assumption. eauto.
  - intros di dv Hrun.
    destruct (model_returns_inv BuckBoostClamped _ _ _ _ _ _ _ _ Hrun)
      as (HL & HR & HC).
    rewrite buck_boost_clamped_valid in Hrun by assumption.
    injection Hrun as Hdi _. cbv zeta in Hdi. fold d0 in Hdi.
    destruct (decide (i <= 0 /\ d0 < 0)) as [[Hi Hd] | Hn]; subst di.
    + repeat split; lra.
    + repeat split; try lra; tauto.
Qed.

(** C2.  [buck_boost_clamped] uses i_eff = max(i, 0) for i in the dv/dt
    equation, dv/dt = -(1-Uav)*max(i,0)/C - v/(R*C), whatever the sign of i
    (so the current term vanishes for i <= 0 and is that of [buck_boost]
    for i >= 0), while the di/dt it returns is the clamp rule applied to the
    original i and to (E*Uav)/L + (1-Uav)*v/L. *)
Theorem effective_current_in_dv_dt :
  L <> 0 -> R <> 0 -> C <> 0 ->
  buck_boost_clamped (i, v) t L R C Uav E =
    Ok (let d0 := (E * Uav) / L + (1 - Uav) * v / L in
        if decide (i <= 0 /\ d0 < 0) then 0 else d0,
        - (1 - Uav) * Rmax i 0 / C - v / (R * C))
  /\ (i <= 0 -> - (1 - Uav) * Rmax i 0 / C - v / (R * C) = - v / (R * C))
  /\ (0 <= i -> - (1 - Uav) * Rmax i 0 / C - v / (R * C)
                = - (1 - Uav) * i / C - v / (R * C)).
Proof.
  intros HL HR HC. split; [ | split].
  - rewrite buck_boost_clamped_valid by assumption. rewrite pymax_Rmax. reflexivity.
  - intros Hi. rewrite Rmax_right by assumption. field. split; assumption.
  - intros Hi. rewrite Rmax_left by assumption. reflexivity.
Qed.

(** C9.  At a current i <= 0 and with L non-zero, a di/dt returned by
    [buck_boost_clamped] is never negative; and with R and C non-zero as
    well the function does return one. *)
Theorem clamped_di_dt_nonneg :
  i <= 0 -> L <> 0 ->
  (forall di dv,
     buck_boost_clamped (i, v) t L R C Uav E = Ok (di, dv) -> 0 <= di)
  /\ (R <> 0 -> C <> 0 ->
      exists di dv,
        buck_boost_clamped (i, v) t L R C Uav E = Ok (di, dv) /\ 0 <= di).
Proof.
  intros Hi HL.
  assert (Hnn : let d := E * Uav / L + (1 - Uav) * v / L in
                0 <= (if decide (i <= 0 /\ d < 0) then 0 else d)).
  { cbv zeta. destruct (decide _) as [_ | Hn]; [lra | ].
    apply Rnot_lt_le. intros Hd. apply Hn. split; assumption. }
  split.
  - intros di dv Hrun.
    destruct (model_returns_inv BuckBoostClamped _ _ _ _ _ _ _ _ Hrun)
      as (_ & HR & HC).
    rewrite buck_boost_clamped_valid in Hrun by assumption.
    injection Hrun as <- _. exact Hnn.
  - intros HR HC. rewrite buck_boost_clamped_valid by assumption.
    eexists _, _. split; [reflexivity | exact Hnn].
Qed.

(** C10.  At a current i > 0 and with L, R, C non-zero,
    [buck_boost_clamped] returns the derivative pair that [buck_boost]
    returns, which is (E*Uav/L + (1-Uav)*v/L, -(1-Uav)*i/C - v/(R*C)). *)
Theorem clamped_agrees_with_buck_boost :
  0 < i -> L <> 0 -> R <> 0 -> C <> 0 ->
  buck_boost_clamped (i, v) t L R C Uav E = buck_boost (i, v) t L R C Uav E
  /\ buck_boost (i, v) t L R C Uav E =
     Ok (E * Uav / L + (1 - Uav) * v / L, - (1 - Uav) * i / C - v / (R * C)).
Proof.
  intros Hi HL HR HC.
  rewrite buck_boost_clamped_valid, buck_boost_valid by assumption.
  split; [ | reflexivity]. cbv zeta.
  destruct (decide _) as [[Hle _] | _]; [lra | ].
  unfold pymax. destruct (decide (i < 0)); [lra | reflexivity].
Qed.

End DerivativeModel.

(** ** Calls on state objects *)

Section Calls.

Variable func : rhs.
Variables L R C Uav E : float.

Lemma call_run (x : loc) (t : float) (h : heap) (i v : float) :
  h !! x = Some [i; v] ->
  call func x t L R C Uav E h =
  match func (i, v) t L R C Uav E with
  | Ok d => Ok (length h, h ++ [[d.1; d.2]])
  | Err e => Err e
  end.
Proof.
  intros Hx. unfold call, mbind, py_bind, unpack2, lift, new_list.
  rewrite Hx. destruct (func (i, v) t L R C Uav E); reflexivity.
Qed.

(** One step of the integrator on a derivative function of the source. *)
Lemma euler_step (y : loc) (s s' : float) (ts : list float) (h : heap)
    (i v : float) :
  h !! y = Some [i; v] ->
  euler (fun x s => call func x s L R C Uav E) y s (s' :: ts) h =
  match func (i, v) s L R C Uav E with
  | Ok d =>
      let x' := (i + (s' - s) * d.1, v + (s' - s) * d.2) in
      match euler (fun x s => call func x s L R C Uav E) y s' ts
              (<[y := [x'.1; x'.2]]> (h ++ [[d.1; d.2]])) with
      | Ok (rows, h') => Ok (x' :: rows, h')
      | Err e => Err e
      end
  | Err e => Err e
  end.
Proof.
  intros Hy. cbn [euler]. unfold mbind at 1, py_bind at 1.
  rewrite (call_run y s h i v Hy).
  destruct (func (i, v) s L R C Uav E) as [d | e]; [ | reflexivity].
  pose proof (lookup_lt_Some _ _ _ Hy) as Hlt.
  assert (Hd : (h ++ [[d.1; d.2]]) !! length h = Some [d.1; d.2])
    by (apply list_lookup_middle; reflexivity).
  assert (Hy' : (h ++ [[d.1; d.2]]) !! y = Some [i; v])
    by (rewrite lookup_app_l by assumption; exact Hy).
  unfold mbind at 1, py_bind at 1, unpack2 at 1. rewrite Hd.
  unfold mbind at 1, py_bind at 1, unpack2 at 1. rewrite Hy'.
  unfold mbind at 1, py_bind at 1, assign at 1.
  unfold mbind at 1, py_bind at 1.
  cbn [fst snd]. reflexivity.
Qed.

End Calls.

(** ** The integrator *)

(** Every reported row comes from one grid time, whatever [func] is. *)
Lemma euler_length (func : loc -> float -> py loc) (ts : list float) :
  forall (y : loc) (t : float) (h h' : heap) (rows : list state),
    euler func y t ts h = Ok (rows, h') -> length rows = length ts.
Proof.
  induction ts as [ | t' ts IH]; intros y t h h' rows.
  - cbn. intros H. injection H as <- _. reflexivity.
  - cbn [euler]. unfold mbind, py_bind, assign.
    destruct (func y t h) as [[d h1] | ]; [ | discriminate].
    destruct (unpack2 d h1) as [[dx h2] | ]; [ | discriminate].
    destruct (unpack2 y h2) as [[x h3] | ]; [ | discriminate].
    destruct (euler func y t' ts _) as [[rows' h4] | ] eqn:Hrec; [ | discriminate].
    intros H. injection H as <- _. cbn. f_equal. exact (IH _ _ _ _ _ Hrec).
Qed.

Section Euler.

Variable func : rhs.
Variables L R C Uav E : float.

Local Abbreviation F := (fun x s => call func x s L R C Uav E).

Lemma work_array_updated (y : loc) (h : heap) (old d x' : list float) :
  h !! y = Some old ->
  <[y := x']> (h ++ [d]) !! y = Some x'.
Proof.
  intros Hy. apply list_lookup_insert_eq.
  rewrite length_app. pose proof (lookup_lt_Some _ _ _ Hy). lia.
Qed.

(** With a derivative function that always returns, so does the integrator. *)
Lemma euler_total (ts : list float) :
  (forall (x : state) (s : float), exists d, func x s L R C Uav E = Ok d) ->
  forall (t : float) (y : loc) (h : heap) (i v : float),
    h !! y = Some [i; v] ->
    exists rows h', euler F y t ts h = Ok (rows, h').
Proof.
  intros Hfunc.
  induction ts as [ | t' ts IH]; intros t y h i v Hy.
  - cbn. eauto.
  - rewrite (euler_step _ _ _ _ _ _ _ _ _ _ _ i v Hy).
    destruct (Hfunc (i, v) t) as [d ->]. cbv zeta. cbn [fst snd].
    pose (x' := [i + (t' - t) * d.1; v + (t' - t) * d.2]).
    destruct (IH t' y _ _ _ (work_array_updated y h _ [d.1; d.2] x' Hy))
      as (rows & h' & Hrec).
    unfold x' in Hrec. rewrite Hrec. eauto.
Qed.

End Euler.

Lemma simulate_nonempty (topo : topology) (x0 : state) (t0 : float)
    (ts : list float) (args : parameters) (h : heap) :
  simulate topo x0 (t0 :: ts) args h =
  match euler (fun x s => call (model topo) x s (p_L args) (p_R args)
                            (p_C args) (p_Uav args) (p_E args))
          (length h) t0 ts (h ++ [[x0.1; x0.2]]) with
  | Ok (rows, h') => Ok (x0 :: rows, h')
  | Err e => Err e
  end.
Proof. reflexivity. Qed.

Lemma work_array_allocated (h : heap) (x0 : state) :
  (h ++ [[x0.1; x0.2]]) !! length h = Some [x0.1; x0.2].
Proof. apply list_lookup_middle. reflexivity. Qed.

(** Which exception a derivative function raises, and when. *)
Lemma model_zero_divisor (topo : topology) (x : state) (t L R C Uav E : float) :
  L = 0 \/ R = 0 \/ C = 0 ->
  model topo x t L R C Uav E = Err ZeroDivisionError.
Proof.
  intros Hzero. destruct x as [i v].
  destruct topo; cbn [model];
    unfold buck, buck_boost, buck_boost_clamped;
    repeat (next_div; try reflexivity);
    exfalso; destruct Hzero as [H | [H | H]]; subst;
    solve [ contradiction | match goal with H : _ <> 0 |- _ => apply H; lra end ].
Qed.

Lemma model_valid (topo : topology) (x : state) (t L R C Uav E : float) :
  L <> 0 -> R <> 0 -> C <> 0 ->
  exists d, model topo x t L R C Uav E = Ok d.
Proof.
  intros HL HR HC. destruct x as [i v]. destruct topo; cbn [model].
  - rewrite buck_valid by assumption. eauto.
  - rewrite buck_boost_valid by assumption. eauto.
  - rewrite buck_boost_clamped_valid by assumption. eauto.
Qed.


(** ** The integrator: claims *)

Section Simulate.

Variable topo : topology.
Variable initial_state : state.
Variable time_grid : list float.
Variable args : parameters.

Lemma simulate_total (h : heap) :
  p_L args <> 0 -> p_R args <> 0 -> p_C args <> 0 ->
  exists trajectory h',
    simulate topo initial_state time_grid args h = Ok (trajectory, h').
Proof.
  intros HL HR HC. destruct time_grid as [ | t0 ts].
  - cbn. eauto.
  - rewrite simulate_nonempty.
    destruct (euler_total (model topo) (p_L args) (p_R args) (p_C args)
                (p_Uav args) (p_E args) ts
                (fun x s => model_valid topo x s _ _ _ _ _ HL HR HC)
                t0 _ _ _ _ (work_array_allocated h initial_state))
      as (rows & h' & ->).
    eauto.
Qed.

Lemma simulate_shape (h h' : heap) (trajectory : list state) :
  simulate topo initial_state time_grid args h = Ok (trajectory, h') ->
  length trajectory = length time_grid
  /\ (time_grid <> [] -> trajectory !! 0%nat = Some initial_state).
Proof.
  destruct time_grid as [ | t0 ts].
  - cbn. intros H. injection H as <- _. split; [reflexivity | congruence].
  - rewrite simulate_nonempty.
    destruct (euler _ _ t0 ts _) as [[rows h1] | e] eqn:Hrec; [ | discriminate].
    intros H. injection H as <- _. split; [ | reflexivity].
    cbn. f_equal. exact (euler_length _ _ _ _ _ _ _ Hrec).
Qed.


(** C6.  The trajectory of a successful run has the length of the time
    grid and, for a non-empty grid (so for every strictly increasing grid
    of at least two points), starts with the initial state itself; and with
    L, R, C non-zero the run is successful. *)
Theorem simulate_trajectory_shape (h : heap) :
  (forall trajectory h',
     simulate topo initial_state time_grid args h = Ok (trajectory, h') ->
     length trajectory = length time_grid
     /\ (time_grid <> [] -> trajectory !! 0%nat = Some initial_state))
  /\ (p_L args <> 0 -> p_R args <> 0 -> p_C args <> 0 ->
      exists trajectory h',
        simulate topo initial_state time_grid args h = Ok (trajectory, h')
        /\ length trajectory = length time_grid
        /\ (time_grid <> [] -> trajectory !! 0%nat = Some initial_state)).
Proof.
  split.
  - intros trajectory h'. apply simulate_shape.
  - intros HL HR HC.
    destruct (simulate_total h HL HR HC) as (trajectory & h' & Hrun).
    exists trajectory, h'. split; [exact Hrun | exact (simulate_shape _ _ _ Hrun)].
Qed.

End Simulate.


(** ** Instances

    The theorems above at concrete inputs: the parameters of [main]
    (L = 1e-3, R = 47, C = 50e-6, Uav = 0.5, E = 12) and variations of them. *)

Lemma buck_equations_witness :
  (1e-3 <> 0 /\ 47 <> 0 /\ 50e-6 <> 0)
  /\ buck (1, 2) 0 1e-3 47 50e-6 0.5 12
     = Ok (12 * 0.5 / 1e-3 - 2 / 1e-3, 1 / 50e-6 - 2 / (47 * 50e-6)).
Proof.
  split; [lra | ].
  apply (buck_equations 1 2 0 1e-3 47 50e-6 0.5 12); lra.
Defined.

Lemma buck_boost_equations_witness :
  (1e-3 <> 0 /\ 47 <> 0 /\ 50e-6 <> 0)
  /\ buck_boost (1, 2) 0 1e-3 47 50e-6 0.5 12
     = Ok (12 * 0.5 / 1e-3 + (1 - 0.5) * 2 / 1e-3,
           - (1 - 0.5) * 1 / 50e-6 - 2 / (47 * 50e-6)).
Proof.
  split; [lra | ].
  apply (buck_boost_equations 1 2 0 1e-3 47 50e-6 0.5 12); lra.
Defined.

(** At i = 0 and v = -20 the computed di/dt is 6000 - 10000 < 0: clamped. *)
Lemma clamp_rule_witness :
  exists dv, buck_boost_clamped (0, -20) 0 1e-3 47 50e-6 0.5 12 = Ok (0, dv).
Proof.
  destruct (clamp_rule 0 (-20) 0 1e-3 47 50e-6 0.5 12)
    as [Hreturns Hrule].
  destruct Hreturns as (di & dv & Hrun); try lra.
  destruct (Hrule di dv Hrun) as (Hclamp & _).
  exists dv. rewrite Hrun, Hclamp; [reflexivity | lra].
Defined.

Lemma effective_current_in_dv_dt_witness :
  (1e-3 <> 0 /\ 47 <> 0 /\ 50e-6 <> 0 /\ -1 <= 0)
  /\ - (1 - 0.5) * Rmax (-1) 0 / 50e-6 - 5 / (47 * 50e-6) = - 5 / (47 * 50e-6).
Proof.
  split; [lra | ].
  apply (effective_current_in_dv_dt (-1) 5 0 1e-3 47 50e-6 0.5 12); lra.
Defined.

Lemma clamped_di_dt_nonneg_witness :
  (-1 <= 0 /\ 1e-3 <> 0 /\ 47 <> 0 /\ 50e-6 <> 0)
  /\ exists di dv,
       buck_boost_clamped (-1, -20) 0 1e-3 47 50e-6 0.5 12 = Ok (di, dv)
       /\ 0 <= di.
Proof.
  split; [lra | ].
  apply (clamped_di_dt_nonneg (-1) (-20) 0 1e-3 47 50e-6 0.5 12); lra.
Defined.

Lemma clamped_agrees_with_buck_boost_witness :
  (0 < 1 /\ 1e-3 <> 0 /\ 47 <> 0 /\ 50e-6 <> 0)
  /\ buck_boost_clamped (1, 2) 0 1e-3 47 50e-6 0.5 12
     = buck_boost (1, 2) 0 1e-3 47 50e-6 0.5 12.
Proof.
  split; [lra | ].
  apply (clamped_agrees_with_buck_boost 1 2 0 1e-3 47 50e-6 0.5 12); lra.
Defined.

(** The clamp edge cases: at i = 0 a computed di/dt of 0 (E = 0, v = 0) is
    returned as the 0 it is, and the positive 6000 of E = 12 is left alone. *)
Example clamp_edge_zero :
  buck_boost_clamped (0, 0) 0 1e-3 47 50e-6 0.5 0 = Ok (0, 0).
Proof.
  rewrite buck_boost_clamped_valid by lra. cbv zeta.
  destruct (decide _) as [[_ Hneg] | _]; [lra | ].
  unfold pymax. destruct (decide (0 < 0)); f_equal; f_equal; lra.
Qed.

Example clamp_edge_rising :
  buck_boost_clamped (0, 0) 0 1e-3 47 50e-6 0.5 12 = Ok (6000, 0).
Proof.
  rewrite buck_boost_clamped_valid by lra. cbv zeta.
  destruct (decide _) as [[_ Hneg] | _]; [lra | ].
  unfold pymax. destruct (decide (0 < 0)); f_equal; f_equal; lra.
Qed.


Lemma simulate_trajectory_shape_witness :
  (1e-3 <> 0 /\ 47 <> 0 /\ 50e-6 <> 0)
  /\ exists trajectory h',
       simulate Buck (0, 0) [0; 1e-5; 2e-5] (Parameters 1e-3 47 50e-6 0.5 12) []
       = Ok (trajectory, h')
       /\ length trajectory = 3%nat
       /\ trajectory !! 0%nat = Some (0, 0).
Proof.
  split; [lra | ].
  destruct (simulate_trajectory_shape Buck (0, 0) [0; 1e-5; 2e-5]
              (Parameters 1e-3 47 50e-6 0.5 12) []) as [_ Hvalid].
  destruct Hvalid as (trajectory & h' & Hrun & Hlen & Hfirst);
    cbn [p_L p_R p_C]; try lra.
  exists trajectory, h'. repeat split; [exact Hrun | exact Hlen | ].
  apply Hfirst. discriminate.
Defined.




(** ** Further properties of the derivative model *)

Section Equilibria.

Variables i v t L R C Uav E : float.
Hypothesis HL : L <> 0.
Hypothesis HR : R <> 0.
Hypothesis HC : C <> 0.

(** A quotient by a non-zero number vanishes with its numerator only. *)
Lemma quotient_zero (a b : float) : b <> 0 -> a / b = 0 -> a = 0.
Proof.
  intros Hb Hq. replace a with (a / b * b) by (field; assumption).
  rewrite Hq. lra.
Qed.

(** X2.  The state at which [buck] returns the zero derivative is the
    step-down operating point and no other: v = E*Uav, i = E*Uav/R. *)
Theorem buck_steady_state :
  buck (i, v) t L R C Uav E = Ok (0, 0) <-> v = E * Uav /\ i = E * Uav / R.
Proof.
  rewrite buck_valid by assumption. split.
  - intros H. injection H as Hdi Hdv.
    assert (Hv : v = E * Uav).
    { assert (H0 : E * Uav - v = 0); [ | lra].
      apply (quotient_zero _ L HL). rewrite <- Hdi. field. assumption. }
    split; [exact Hv | ].
    assert (Hi : i * R - v = 0).
    { apply (quotient_zero (i * R - v) (R * C)).
      - apply Rmult_integral_contrapositive_currified; assumption.
      - rewrite <- Hdv. field. split; assumption. }
    rewrite <- Hv. apply Rmult_eq_reg_r with R; [ | assumption].
    replace (v / R * R) with v by (field; assumption). lra.
  - intros [-> ->]. f_equal. f_equal; field; try assumption. split; assumption.
Qed.

(** X3.  For a duty ratio other than 1, the state at which [buck_boost]
    returns the zero derivative is the inverting operating point and no
    other: v = -E*Uav/(1-Uav), i = E*Uav/(R*(1-Uav)^2). *)
Theorem buck_boost_steady_state :
  Uav <> 1 ->
  buck_boost (i, v) t L R C Uav E = Ok (0, 0)
  <-> v = - (E * Uav) / (1 - Uav)
      /\ i = E * Uav / (R * ((1 - Uav) * (1 - Uav))).
Proof.
  intros HU. assert (HU' : 1 - Uav <> 0) by lra.
  rewrite buck_boost_valid by assumption. split.
  - intros H. injection H as Hdi Hdv.
    assert (Hv : (1 - Uav) * v = - (E * Uav)).
    { assert (H0 : E * Uav + (1 - Uav) * v = 0); [ | lra].
      apply (quotient_zero _ L HL). rewrite <- Hdi. field. assumption. }
    assert (Hi : (1 - Uav) * i * R = - v).
    { assert (H0 : - (1 - Uav) * i * R - v = 0); [ | lra].
      apply (quotient_zero _ (R * C)).
      - apply Rmult_integral_contrapositive_currified; assumption.
      - rewrite <- Hdv. field. split; assumption. }
    assert (Hv' : v = - (E * Uav) / (1 - Uav)).
    { rewrite <- Hv. field. assumption. }
    split; [exact Hv' | ].
    apply Rmult_eq_reg_l with ((1 - Uav) * R);
      [ | apply Rmult_integral_contrapositive_currified; assumption].
    replace ((1 - Uav) * R * i) with (- v) by lra.
    rewrite Hv'. field. split; assumption.
  - intros [-> ->]. f_equal. f_equal; field; repeat split; assumption.
Qed.

End Equilibria.

Section Linearity.

Variables t L R C Uav : float.
Hypothesis HL : L <> 0.
Hypothesis HR : R <> 0.
Hypothesis HC : C <> 0.

(** X4.  [buck] and [buck_boost] are linear in the state and the source
    voltage together: the derivative at a combination a*(i1,v1) + b*(i2,v2)
    under the source a*E1 + b*E2 is the same combination of the two
    derivatives. *)
Theorem linear_models_superpose (topo : topology)
    (a b i1 v1 E1 i2 v2 E2 : float) :
  topo <> BuckBoostClamped ->
  exists d1 d2,
    model topo (i1, v1) t L R C Uav E1 = Ok d1
    /\ model topo (i2, v2) t L R C Uav E2 = Ok d2
    /\ model topo (a * i1 + b * i2, a * v1 + b * v2) t L R C Uav
         (a * E1 + b * E2)
       = Ok (a * d1.1 + b * d2.1, a * d1.2 + b * d2.2).
Proof.
  intros Htopo. destruct topo; [ | | contradiction]; cbn [model].
  - rewrite !buck_valid by assumption. eexists _, _.
    split; [reflexivity | split; [reflexivity | ]].
    cbn [fst snd]. f_equal. f_equal; field; try assumption; split; assumption.
  - rewrite !buck_boost_valid by assumption. eexists _, _.
    split; [reflexivity | split; [reflexivity | ]].
    cbn [fst snd]. f_equal. f_equal; field; try assumption; split; assumption.
Qed.

(** X5.  [buck_boost_clamped] is not linear but keeps the positive half of
    it: scaling the state and the source voltage by a factor a > 0 scales
    the derivative by a. *)
Theorem clamped_positively_homogeneous (a i v E : float) :
  0 < a ->
  exists d,
    buck_boost_clamped (i, v) t L R C Uav E = Ok d
    /\ buck_boost_clamped (a * i, a * v) t L R C Uav (a * E)
       = Ok (a * d.1, a * d.2).
Proof.
  intros Ha. rewrite !buck_boost_clamped_valid by assumption.
  eexists. split; [reflexivity | ]. cbn [fst snd]. cbv zeta.
  assert (Hd : a * E * Uav / L + (1 - Uav) * (a * v) / L
               = a * (E * Uav / L + (1 - Uav) * v / L)) by (field; assumption).
  rewrite Hd. set (d0 := E * Uav / L + (1 - Uav) * v / L).
  assert (Hmax : pymax (a * i) 0 = a * pymax i 0).
  { unfold pymax. destruct (decide (a * i < 0)), (decide (i < 0)); nra. }
  rewrite Hmax. f_equal. f_equal.
  - destruct (decide (a * i <= 0 /\ a * d0 < 0)) as [[H1 H2] | Hn],
             (decide (i <= 0 /\ d0 < 0)) as [[H3 H4] | Hn']; nra.
  - field. split; assumption.
Qed.

End Linearity.

Section Clamp.

Variables i v t L R C Uav E : float.

(** X6.  [buck_boost_clamped] sees the current only through max(i, 0): at
    any state, and for any parameters, it does what it does at the state
    with the current replaced by max(i, 0), raising included. *)
Theorem clamped_sees_effective_current :
  buck_boost_clamped (i, v) t L R C Uav E
  = buck_boost_clamped (Rmax i 0, v) t L R C Uav E.
Proof.
  destruct (Rle_dec i 0) as [Hi | Hi].
  - rewrite (Rmax_right i 0 Hi). unfold buck_boost_clamped.
    assert (Hmax : pymax i 0 = pymax 0 0).
    { unfold pymax. destruct (decide (i < 0)), (decide (0 < 0)); lra. }
    rewrite Hmax.
    rewrite (bool_decide_eq_true_2 (i <= 0) Hi).
    rewrite (bool_decide_eq_true_2 (0 <= 0)) by lra.
    reflexivity.
  - rewrite Rmax_left by lra. reflexivity.
Qed.

(** X7.  At a current i <= 0 and with L, R, C non-zero, the clamped model
    is [buck_boost] at zero current with the current derivative floored at
    zero. *)
Theorem clamped_floors_buck_boost :
  i <= 0 -> L <> 0 -> R <> 0 -> C <> 0 ->
  exists d,
    buck_boost (0, v) t L R C Uav E = Ok d
    /\ buck_boost_clamped (i, v) t L R C Uav E = Ok (Rmax d.1 0, d.2).
Proof.
  intros Hi HL HR HC.
  rewrite buck_boost_valid, buck_boost_clamped_valid by assumption.
  eexists. split; [reflexivity | ]. cbn [fst snd]. cbv zeta.
  set (d0 := E * Uav / L + (1 - Uav) * v / L).
  f_equal. f_equal.
  - destruct (decide (i <= 0 /\ d0 < 0)) as [[_ Hd] | Hn].
    + rewrite Rmax_right by lra. reflexivity.
    + rewrite Rmax_left; [reflexivity | ].
      apply Rnot_lt_le. intros Hd. apply Hn. split; assumption.
  - unfold pymax. destruct (decide (i < 0)); [reflexivity | ].
    replace i with 0 by lra. reflexivity.
Qed.

End Clamp.

Section PowerBalance.

Variables i v t L R C Uav E : float.
Hypothesis HL : L <> 0.
Hypothesis HR : R <> 0.
Hypothesis HC : C <> 0.

(** X8.  Power balance of [buck] and [buck_boost]: with the derivative
    (di, dv) they return, L*i*di + C*v*dv, the rate of change of the stored
    energy L*i^2/2 + C*v^2/2, is the power E*Uav*i drawn from the source less
    the power v^2/R delivered to the load. *)
Theorem linear_models_power_balance (topo : topology) :
  topo <> BuckBoostClamped ->
  exists d,
    model topo (i, v) t L R C Uav E = Ok d
    /\ L * i * d.1 + C * v * d.2 = E * Uav * i - v * v / R.
Proof.
  intros Htopo. destruct topo; [ | | contradiction]; cbn [model].
  - rewrite buck_valid by assumption. eexists. split; [reflexivity | ].
    cbn [fst snd]. field. repeat split; assumption.
  - rewrite buck_boost_valid by assumption. eexists. split; [reflexivity | ].
    cbn [fst snd]. field. repeat split; assumption.
Qed.

(** X9.  [buck_boost_clamped] keeps that balance at a positive current, and
    at a current i <= 0, for a positive inductance, the stored energy changes
    at a rate of at most -v^2/R: nothing is drawn from the source. *)
Theorem clamped_power_balance :
  exists d,
    buck_boost_clamped (i, v) t L R C Uav E = Ok d
    /\ (0 < i -> L * i * d.1 + C * v * d.2 = E * Uav * i - v * v / R)
    /\ (i <= 0 -> 0 < L -> L * i * d.1 + C * v * d.2 <= - (v * v / R)).
Proof.
  rewrite buck_boost_clamped_valid by assumption.
  eexists. split; [reflexivity | ]. cbn [fst snd]. cbv zeta.
  set (d0 := E * Uav / L + (1 - Uav) * v / L).
  split.
  - intros Hi.
    destruct (decide (i <= 0 /\ d0 < 0)) as [[Hle _] | _]; [lra | ].
    unfold pymax. destruct (decide (i < 0)); [lra | ].
    unfold d0. field. repeat split; assumption.
  - intros Hi HLpos.
    assert (Hmax : pymax i 0 = 0).
    { unfold pymax. destruct (decide (i < 0)); lra. }
    rewrite Hmax.
    replace (C * v * (- (1 - Uav) * 0 / C - v / (R * C))) with (- (v * v / R))
      by (field; split; assumption).
    destruct (decide (i <= 0 /\ d0 < 0)) as [_ | Hn];
      [rewrite Rmult_0_r; lra | ].
    assert (Hd : 0 <= d0).
    { apply Rnot_lt_le. intros Hd. apply Hn. split; assumption. }
    assert (HLi : L * i <= 0) by nra.
    assert (Hprod : L * i * d0 <= 0) by nra.
    lra.
Qed.

(** X10.  With a positive capacitance and a duty ratio of at most 1, the
    current term of [buck_boost_clamped] can only lower dv/dt: whatever the
    current, dv/dt <= -v/(R*C), the rate of the load discharging the
    capacitor alone. *)
Theorem clamped_current_lowers_voltage :
  0 < C -> Uav <= 1 ->
  exists d,
    buck_boost_clamped (i, v) t L R C Uav E = Ok d
    /\ d.2 <= - v / (R * C).
Proof.
  intros HCpos HU. rewrite buck_boost_clamped_valid by assumption.
  eexists. split; [reflexivity | ]. cbn [fst snd].
  assert (Hmax : 0 <= pymax i 0).
  { unfold pymax. destruct (decide (i < 0)); lra. }
  assert (Hterm : 0 <= (1 - Uav) * pymax i 0 / C).
  { apply Rmult_le_pos; [apply Rmult_le_pos; lra | ].
    apply Rlt_le, Rinv_0_lt_compat. exact HCpos. }
  replace (- (1 - Uav) * pymax i 0 / C) with (- ((1 - Uav) * pymax i 0 / C))
    by (field; assumption).
  replace (- v / (R * C)) with (- (v / (R * C))) by (field; split; assumption).
  lra.
Qed.

End PowerBalance.

Section ClampedRest.

Variables i v t L R C Uav E : float.
Hypothesis HL : L <> 0.
Hypothesis HR : R <> 0.
Hypothesis HC : C <> 0.

(** X12.  The states at which [buck_boost_clamped] returns the zero
    derivative are the zero-derivative states of [buck_boost] that have a
    positive current, and the blocked states: a current i <= 0 with v = 0,
    when the source term E*Uav/L is not positive. *)
Theorem clamped_rest_states :
  buck_boost_clamped (i, v) t L R C Uav E = Ok (0, 0)
  <-> (0 < i /\ buck_boost (i, v) t L R C Uav E = Ok (0, 0))
      \/ (i <= 0 /\ v = 0 /\ E * Uav / L <= 0).
Proof.
  assert (HRC : R * C <> 0)
    by (apply Rmult_integral_contrapositive_currified; assumption).
  rewrite buck_boost_clamped_valid, buck_boost_valid by assumption.
  cbv zeta. set (d0 := E * Uav / L + (1 - Uav) * v / L).
  destruct (Rlt_le_dec 0 i) as [Hi | Hi].
  - assert (Hmax : pymax i 0 = i).
    { unfold pymax. destruct (decide (i < 0)); lra. }
    rewrite Hmax.
    destruct (decide (i <= 0 /\ d0 < 0)) as [[Hle _] | _]; [lra | ].
    split; [intros H; left; split; assumption | ].
    intros [[_ H] | [Hle _]]; [exact H | lra].
  - assert (Hmax : pymax i 0 = 0).
    { unfold pymax. destruct (decide (i < 0)); lra. }
    rewrite Hmax.
    assert (Hdv : - (1 - Uav) * 0 / C - v / (R * C) = - v / (R * C))
      by (field; split; assumption).
    rewrite Hdv. split.
    + intros H. injection H as Hdi Hv. right.
      assert (Hv0 : v = 0).
      { assert (H0 : - v = 0) by exact (quotient_zero _ _ HRC Hv). lra. }
      split; [exact Hi | split; [exact Hv0 | ]].
      assert (Hd0 : d0 = E * Uav / L)
        by (unfold d0; rewrite Hv0; field; assumption).
      rewrite <- Hd0.
      destruct (decide (i <= 0 /\ d0 < 0)) as [[_ Hneg] | _]; lra.
    + intros [[Hpos _] | (_ & Hv0 & Hsrc)]; [lra | ].
      assert (Hd0 : d0 = E * Uav / L)
        by (unfold d0; rewrite Hv0; field; assumption).
      f_equal. f_equal.
      * destruct (decide (i <= 0 /\ d0 < 0)) as [_ | Hn]; [reflexivity | ].
        apply Rle_antisym; [lra | ].
        apply Rnot_lt_le. intros Hneg. apply Hn. split; assumption.
      * rewrite Hv0. field. split; assumption.
Qed.

End ClampedRest.

(** X13.  At a duty ratio of 0 the source voltage has no effect: each of the
    three derivative functions does the same for any two values of E,
    whatever the other parameters. *)
Theorem source_disconnected_at_zero_duty (topo : topology) (x : state)
    (t L R C E1 E2 : float) :
  model topo x t L R C 0 E1 = model topo x t L R C 0 E2.
Proof.
  destruct x as [i v].
  destruct topo; cbn [model]; unfold buck, buck_boost, buck_boost_clamped;
    rewrite !Rmult_0_r; reflexivity.
Qed.

(** ** Instances of the further properties *)

Lemma buck_steady_state_witness :
  (1e-3 <> 0 /\ 47 <> 0 /\ 50e-6 <> 0)
  /\ buck (6 / 47, 6) 0 1e-3 47 50e-6 0.5 12 = Ok (0, 0).
Proof.
  split; [lra | ].
  destruct (buck_steady_state (6 / 47) 6 0 1e-3 47 50e-6 0.5 12)
    as [_ Hrest]; try lra.
  apply Hrest. split; lra.
Defined.

Lemma buck_boost_steady_state_witness :
  (1e-3 <> 0 /\ 47 <> 0 /\ 50e-6 <> 0 /\ 0.5 <> 1)
  /\ buck_boost (24 / 47, -12) 0 1e-3 47 50e-6 0.5 12 = Ok (0, 0).
Proof.
  split; [lra | ].
  destruct (buck_boost_steady_state (24 / 47) (-12) 0 1e-3 47 50e-6 0.5 12)
    as [_ Hrest]; try lra.
  apply Hrest. split; lra.
Defined.

Lemma linear_models_superpose_witness :
  (1e-3 <> 0 /\ 47 <> 0 /\ 50e-6 <> 0 /\ BuckBoost <> BuckBoostClamped)
  /\ exists d1 d2,
       buck_boost (1, 2) 0 1e-3 47 50e-6 0.5 12 = Ok d1
       /\ buck_boost (-3, 4) 0 1e-3 47 50e-6 0.5 5 = Ok d2
       /\ buck_boost (2 * 1 + 3 * -3, 2 * 2 + 3 * 4) 0 1e-3 47 50e-6 0.5
            (2 * 12 + 3 * 5)
          = Ok (2 * d1.1 + 3 * d2.1, 2 * d1.2 + 3 * d2.2).
Proof.
  split; [repeat split; try lra; discriminate | ].
  exact (linear_models_superpose 0 1e-3 47 50e-6 0.5
           ltac:(lra) ltac:(lra) ltac:(lra)
           BuckBoost 2 3 1 2 12 (-3) 4 5 ltac:(discriminate)).
Defined.

Lemma clamped_positively_homogeneous_witness :
  (1e-3 <> 0 /\ 47 <> 0 /\ 50e-6 <> 0 /\ 0 < 2)
  /\ exists d,
       buck_boost_clamped (-1, -20) 0 1e-3 47 50e-6 0.5 12 = Ok d
       /\ buck_boost_clamped (2 * -1, 2 * -20) 0 1e-3 47 50e-6 0.5 (2 * 12)
          = Ok (2 * d.1, 2 * d.2).
Proof.
  split; [lra | ].
  apply (clamped_positively_homogeneous 0 1e-3 47 50e-6 0.5); lra.
Defined.

Lemma clamped_floors_buck_boost_witness :
  (-1 <= 0 /\ 1e-3 <> 0 /\ 47 <> 0 /\ 50e-6 <> 0)
  /\ exists d,
       buck_boost (0, -20) 0 1e-3 47 50e-6 0.5 12 = Ok d
       /\ buck_boost_clamped (-1, -20) 0 1e-3 47 50e-6 0.5 12
          = Ok (Rmax d.1 0, d.2).
Proof.
  split; [lra | ].
  apply (clamped_floors_buck_boost (-1) (-20) 0 1e-3 47 50e-6 0.5 12); lra.
Defined.

Lemma linear_models_power_balance_witness :
  (1e-3 <> 0 /\ 47 <> 0 /\ 50e-6 <> 0 /\ Buck <> BuckBoostClamped)
  /\ exists d,
       buck (1, 2) 0 1e-3 47 50e-6 0.5 12 = Ok d
       /\ 1e-3 * 1 * d.1 + 50e-6 * 2 * d.2 = 12 * 0.5 * 1 - 2 * 2 / 47.
Proof.
  split; [repeat split; try lra; discriminate | ].
  exact (linear_models_power_balance 1 2 0 1e-3 47 50e-6 0.5 12
           ltac:(lra) ltac:(lra) ltac:(lra) Buck ltac:(discriminate)).
Defined.

Lemma clamped_power_balance_witness :
  (1e-3 <> 0 /\ 47 <> 0 /\ 50e-6 <> 0 /\ -1 <= 0 /\ 0 < 1e-3)
  /\ exists d,
       buck_boost_clamped (-1, 2) 0 1e-3 47 50e-6 0.5 12 = Ok d
       /\ 1e-3 * -1 * d.1 + 50e-6 * 2 * d.2 <= - (2 * 2 / 47).
Proof.
  split; [lra | ].
  destruct (clamped_power_balance (-1) 2 0 1e-3 47 50e-6 0.5 12)
    as (d & Hrun & _ & Hblocked); try lra.
  exists d. split; [exact Hrun | apply Hblocked; lra].
Defined.

Lemma clamped_current_lowers_voltage_witness :
  (1e-3 <> 0 /\ 47 <> 0 /\ 50e-6 <> 0 /\ 0 < 50e-6 /\ 0.5 <= 1)
  /\ exists d,
       buck_boost_clamped (1, 2) 0 1e-3 47 50e-6 0.5 12 = Ok d
       /\ d.2 <= - 2 / (47 * 50e-6).
Proof.
  split; [lra | ].
  apply (clamped_current_lowers_voltage 1 2 0 1e-3 47 50e-6 0.5 12); lra.
Defined.

(** With no source (E = 0) the state of a reverse current and no voltage is
    a blocked rest state. *)
Lemma clamped_rest_states_witness :
  (1e-3 <> 0 /\ 47 <> 0 /\ 50e-6 <> 0)
  /\ buck_boost_clamped (-1, 0) 0 1e-3 47 50e-6 0.5 0 = Ok (0, 0).
Proof.
  split; [lra | ].
  destruct (clamped_rest_states (-1) 0 0 1e-3 47 50e-6 0.5 0)
    as [_ Hrest]; try lra.
  apply Hrest. right. repeat split; lra.
Defined.
